(** * rust-variant-ts: tagged unions, [Result] and [Option] with [match]

    A shallow embedding of [src/index.ts].  The TypeScript classes become
    functions over an explicit object store: an instance is a heap object
    with a prototype class and own fields, a method takes the location of
    its receiver, and caller-supplied handlers and mappers are arbitrary
    computations of the same monad, so that what [match] passes to a handler
    and how often it calls it can be observed. *)

From Stdlib Require Import Floats ZArith.
From stdpp Require Import gmap strings list fin_maps pretty.

(** ** JavaScript values *)

Abbreviation loc := positive.

(** The values the program handles: [undefined], booleans, numbers (IEEE 754
    binary64), strings and references to objects. *)
Inductive val : Type :=
| VUndef
| VBool (b : bool)
| VNum (x : float)
| VStr (s : string)
| VRef (l : loc).

(** The constructor whose prototype an object has.  [CUser] stands for any
    further subclass of [Variant], such as the [Circle], [Rectangle] and
    [Triangle] of the demo. *)
Inductive class : Type :=
| COk
| CErr
| CSome
| CNone
| CUser (name : string).

Record object : Type := Object {
  proto : class;
  fields : gmap string val;
}.

(** ** Numbers *)

Section Numbers.
Local Open Scope Z_scope.

(** [n % d] on numbers: the remainder of the truncating division, with the
    sign of the dividend.  Both operands are decoded to mantissa and exponent,
    the remainder is taken on integers at the smaller exponent, and the result
    (always representable) is encoded again. *)
Definition number_rem (n d : float) : float :=
  match Prim2SF n, Prim2SF d with
  | S754_nan, _ | _, S754_nan => nan
  | S754_infinity _, _ => nan
  | _, S754_zero _ => nan
  | _, S754_infinity _ => n
  | S754_zero _, _ => n
  | S754_finite s m1 e1, S754_finite _ m2 e2 =>
      let e := Z.min e1 e2 in
      let r := (Z.pos m1 * 2 ^ (e1 - e)) mod (Z.pos m2 * 2 ^ (e2 - e)) in
      SF2Prim (binary_normalize prec emax (cond_Zopp s r) e s)
  end.

(** Compares [a * 2^ea] with [b * 10^pb] on integers. *)
Definition scaled_compare (a ea b pb : Z) : comparison :=
  (a * 2 ^ Z.max ea 0 * 10 ^ Z.max (- pb) 0
   ?= b * 10 ^ Z.max pb 0 * 2 ^ Z.max (- ea) 0).

Fixpoint first_power_above (fuel : nat) (m e n : Z) : Z :=
  match fuel with
  | O => n
  | S fuel' =>
      match scaled_compare m e 1 n with
      | Lt => n
      | _ => first_power_above fuel' m e (n + 1)
      end
  end.

(** The [n] of Number::toString: [10^(n-1) <= m * 2^e < 10^n].  The search
    starts one below an estimate from the binary logarithm that is never
    more than one off, so six steps are more than enough. *)
Definition decimal_point (m e : Z) : Z :=
  first_power_above 6 m e ((Z.log2 m + e) * 30103 / 100000 - 1).

(** Whether the decimal [s * 10^p] reads back as the double [m * 2^e], that
    is, lies between the midpoints to its two neighbours (ties to even). *)
Definition rounds_to (m e s p : Z) : bool :=
  let lo := if (m =? 2 ^ 52) && (-1074 <? e) then 4 * m - 1 else 4 * m - 2 in
  let hi := 4 * m + 2 in
  match scaled_compare lo (e - 2) s p, scaled_compare hi (e - 2) s p with
  | Lt, Gt => true
  | Eq, Gt | Lt, Eq => Z.even m
  | _, _ => false
  end.

(** The [k]-digit decimal nearest to [m * 2^e] that reads back as it. *)
Definition digits_with (m e n k : Z) : option Z :=
  let p := n - k in
  let num := m * 2 ^ Z.max e 0 * 10 ^ Z.max (- p) 0 in
  let den := 2 ^ Z.max (- e) 0 * 10 ^ Z.max p 0 in
  let s := num / den in
  let nearer :=
    match 2 * (num mod den) ?= den with
    | Lt => s
    | Gt => s + 1
    | Eq => if Z.even s then s else s + 1
    end in
  match rounds_to m e s p, rounds_to m e (s + 1) p with
  | true, true => Some nearer
  | true, false => Some s
  | false, true => Some (s + 1)
  | false, false => None
  end.

(** The least number of digits [k] that identify the double, with the
    digits.  Seventeen digits identify every double, so a search from [k = 1]
    with fuel 17 ends in the [Some] branch. *)
Fixpoint shortest_digits (fuel : nat) (m e n k : Z) : Z * Z :=
  match fuel with
  | O => (k, m * 2 ^ Z.max e 0 * 10 ^ Z.max (k - n) 0
             / (2 ^ Z.max (- e) 0 * 10 ^ Z.max (n - k) 0))
  | S fuel' =>
      match digits_with m e n k with
      | Some s => (k, s)
      | None => shortest_digits fuel' m e n (k + 1)
      end
  end.

Definition zeros (n : Z) : string :=
  String.concat "" (replicate (Z.to_nat n) "0"%string).

(** Number::toString for a positive finite double [m * 2^e]. *)
Definition finite_to_string (m e : Z) : string :=
  let n0 := decimal_point m e in
  let '(k, s0) := shortest_digits 17 m e n0 1 in
  let '(n, s) := if s0 =? 10 ^ k then (n0 + 1, 10 ^ (k - 1)) else (n0, s0) in
  let digits := pretty s in
  if (k <=? n) && (n <=? 21) then digits +:+ zeros (n - k)
  else if (0 <? n) && (n <=? 21) then
    String.substring 0 (Z.to_nat n) digits +:+ "."
      +:+ String.substring (Z.to_nat n) (Z.to_nat (k - n)) digits
  else if (-6 <? n) && (n <=? 0) then "0." +:+ zeros (- n) +:+ digits
  else
    let x := n - 1 in
    let exponent := (if x <? 0 then "e-" else "e+") +:+ pretty (Z.abs x) in
    if k =? 1 then digits +:+ exponent
    else String.substring 0 1 digits +:+ "."
           +:+ String.substring 1 (Z.to_nat (k - 1)) digits +:+ exponent.

(** Number::toString, radix 10: what a template literal prints for a number. *)
Definition number_to_string (x : float) : string :=
  match Prim2SF x with
  | S754_nan => "NaN"
  | S754_zero _ => "0"
  | S754_infinity s => if s then "-Infinity" else "Infinity"
  | S754_finite s m e => (if s then "-" else "") +:+ finite_to_string (Z.pos m) e
  end.

End Numbers.

(** ToString, as applied by a template literal and by a computed property
    key.  The objects of this program inherit [Object.prototype.toString]. *)
Definition to_string (v : val) : string :=
  match v with
  | VUndef => "undefined"
  | VBool b => if b then "true" else "false"
  | VNum x => number_to_string x
  | VStr s => s
  | VRef _ => "[object Object]"
  end.

(** [a === b]. *)
Definition strict_eq (a b : val) : bool :=
  match a, b with
  | VUndef, VUndef => true
  | VBool x, VBool y => Bool.eqb x y
  | VNum x, VNum y => PrimFloat.eqb x y
  | VStr x, VStr y => String.eqb x y
  | VRef x, VRef y => Pos.eqb x y
  | _, _ => false
  end.

(** ** Worlds and computations *)

(** What a run leaves behind besides the store: the lines written by
    [console.log] and the calls recorded by instrumented callbacks. *)
Inductive event : Type :=
| ConsoleLog (line : string)
| Call (name : string) (arg : val).

Record world : Type := World {
  heap : gmap loc object;
  trace : list event;
}.

Inductive error : Type :=
| Error (message : string)
| TypeError (message : string).

Inductive outcome (A : Type) : Type :=
| Return (a : A)
| Throw (e : error).
Arguments Return {A} a.
Arguments Throw {A} e.

(** A computation runs in a world and either returns or throws. *)
Definition M (A : Type) : Type := world → outcome A * world.

Definition ret {A} (a : A) : M A := λ w, (Return a, w).

Definition throw {A} (e : error) : M A := λ w, (Throw e, w).

Definition bind {A B} (m : M A) (k : A → M B) : M B :=
  λ w, match m w with
       | (Return a, w') => k a w'
       | (Throw e, w') => (Throw e, w')
       end.

Declare Scope js_scope.
Delimit Scope js_scope with js.
Notation "'let*' x := m 'in' k" := (bind m (λ x, k))
  (at level 10, x binder, m at level 100, k at level 200) : js_scope.
Notation "m ;;; k" := (bind m (λ _, k))
  (at level 100, k at level 200, right associativity) : js_scope.
Local Open Scope js_scope.

(** [new C(...)]: a fresh object; every object already in the store stays. *)
Definition alloc (o : object) : M loc :=
  λ w, let l := fresh (dom (heap w)) in
       (Return l, World (<[l := o]> (heap w)) (trace w)).

(** [v.name]: the own field, [undefined] when there is none.  Reading a
    property of [undefined] throws; the primitives have none of the
    properties the program reads. *)
Definition get_field (v : val) (name : string) : M val :=
  λ w, match v with
       | VRef l =>
           match heap w !! l with
           | Some o => (Return (default VUndef (fields o !! name)), w)
           | None => (Throw (TypeError "dangling reference"), w)
           end
       | VUndef => (Throw (TypeError "Cannot read properties of undefined"), w)
       | _ => (Return VUndef, w)
       end.

(** The class whose methods a method call on [l] finds. *)
Definition class_of (l : loc) : M class :=
  λ w, match heap w !! l with
       | Some o => (Return (proto o), w)
       | None => (Throw (TypeError "dangling reference"), w)
       end.

Definition emit (e : event) : M unit :=
  λ w, (Return tt, World (heap w) (trace w ++ [e])).

Definition console_log (line : string) : M unit := emit (ConsoleLog line).

(** An object literal [{ k1: v1, k2: v2, ... }]: properties are defined in
    source order, a later one replacing an earlier one of the same key. *)
Definition obj_literal {V} (props : list (string * V)) : gmap string V :=
  foldl (λ o kv, <[kv.1 := kv.2]> o) ∅ props.

(** ** The library *)

Module VariantType.

(** [Variant.match]:
    const handler = handlers[this.tag]; return handler(this as any);
    The key is looked up among the properties the caller wrote; calling the
    [undefined] found for a missing key throws.  (What [Object.prototype]
    would answer for keys such as 'toString' is not modelled: no declared
    case of this program is named so.) *)
Definition Variant_match {R} (this : loc) (handlers : gmap string (val → M R)) : M R :=
  let* tag := get_field (VRef this) "tag" in
  match handlers !! to_string tag with
  | Some handler => handler (VRef this)
  | None => throw (TypeError "handler is not a function")
  end.

(** [new Ok(value)]: [tag = 'Ok'] and the parameter property [value]. *)
Definition Ok_new (value : val) : M loc :=
  alloc (Object COk {[ "tag" := VStr "Ok"; "value" := value ]}).

(** [new Err(error)]. *)
Definition Err_new (error : val) : M loc :=
  alloc (Object CErr {[ "tag" := VStr "Err"; "error" := error ]}).

Definition Result_ok (value : val) : M loc := Ok_new value.

Definition Result_err (error : val) : M loc := Err_new error.

(** [new Some(value)]. *)
Definition Some_new (value : val) : M loc :=
  alloc (Object CSome {[ "tag" := VStr "Some"; "value" := value ]}).

(** [new None()]. *)
Definition None_new : M loc :=
  alloc (Object CNone {[ "tag" := VStr "None" ]}).

Definition Option_some (value : val) : M loc := Some_new value.

Definition Option_none : M loc := None_new.

(** [Option.map]. *)
Definition Option_map (this : loc) (f : val → M val) : M loc :=
  Variant_match this (obj_literal [
    ("Some"%string, λ arg, let* value := get_field arg "value" in
                           let* u := f value in
                           Option_some u);
    ("None"%string, λ _, Option_none) ]).

(** [Option.flatMap]. *)
Definition Option_flatMap (this : loc) (f : val → M loc) : M loc :=
  Variant_match this (obj_literal [
    ("Some"%string, λ arg, let* value := get_field arg "value" in f value);
    ("None"%string, λ _, Option_none) ]).

Definition Some_isSome (this : loc) : M bool := ret true.

Definition Some_isNone (this : loc) : M bool := ret false.

Definition Some_unwrap (this : loc) : M val := get_field (VRef this) "value".

Definition Some_unwrapOr (this : loc) (_defaultValue : val) : M val :=
  get_field (VRef this) "value".

Definition None_isSome (this : loc) : M bool := ret false.

Definition None_isNone (this : loc) : M bool := ret true.

Definition None_unwrap (this : loc) : M val :=
  throw (Error "Cannot unwrap None").

Definition None_unwrapOr (this : loc) (defaultValue : val) : M val :=
  ret defaultValue.

(** A call of one of [Option]'s abstract methods runs the implementation of
    the receiver's class; other classes do not have the method. *)
Definition Option_isSome (this : loc) : M bool :=
  let* c := class_of this in
  match c with
  | CSome => Some_isSome this
  | CNone => None_isSome this
  | _ => throw (TypeError "isSome is not a function")
  end.

Definition Option_isNone (this : loc) : M bool :=
  let* c := class_of this in
  match c with
  | CSome => Some_isNone this
  | CNone => None_isNone this
  | _ => throw (TypeError "isNone is not a function")
  end.

Definition Option_unwrap (this : loc) : M val :=
  let* c := class_of this in
  match c with
  | CSome => Some_unwrap this
  | CNone => None_unwrap this
  | _ => throw (TypeError "unwrap is not a function")
  end.

Definition Option_unwrapOr (this : loc) (defaultValue : val) : M val :=
  let* c := class_of this in
  match c with
  | CSome => Some_unwrapOr this defaultValue
  | CNone => None_unwrapOr this defaultValue
  | _ => throw (TypeError "unwrapOr is not a function")
  end.

End VariantType.

Import VariantType.

(** ** The demo program *)

Definition divide (a b : float) : M loc :=
  if strict_eq (VNum b) (VNum 0) then Result_err (VStr "Division by zero")
  else Result_ok (VNum (a / b)).

(** [Array.prototype.find] on a [number[]]: the first element the predicate
    accepts, [undefined] when it accepts none. *)
Fixpoint Array_find (predicate : float → bool) (array : list float) : val :=
  match array with
  | [] => VUndef
  | n :: rest => if predicate n then VNum n else Array_find predicate rest
  end.

Definition findEven (numbers : list float) : M loc :=
  let even := Array_find (λ n, strict_eq (VNum (number_rem n 2)) (VNum 0)) numbers in
  if negb (strict_eq even VUndef) then Option_some even else Option_none.

(** The handlers of the [results.forEach] loop. *)
Definition message_handlers : gmap string (val → M string) :=
  obj_literal [
    ("Ok"%string, λ arg, let* value := get_field arg "value" in
                         ret ("Result: " +:+ to_string value));
    ("Err"%string, λ arg, let* error := get_field arg "error" in
                          ret ("Error: " +:+ to_string error)) ].

Definition print_result (result : loc) : M unit :=
  let* message := Variant_match result message_handlers in
  console_log message.

Fixpoint Array_forEach {A} (callback : A → M unit) (array : list A) : M unit :=
  match array with
  | [] => ret tt
  | x :: rest => (callback x ;;; Array_forEach callback rest)
  end.

(** const results = [divide(10, 2), divide(1, 0), divide(7, 3)];
    results.forEach(...) *)
Definition demo_results : M unit :=
  let* r1 := divide 10 2 in
  let* r2 := divide 1 0 in
  let* r3 := divide 7 3 in
  Array_forEach print_result [r1; r2; r3].

Definition empty_world : world := World ∅ [].

(** ** Instrumented callbacks *)

(** A callback that records each of its calls, with its argument, before it
    runs: a function that counts its calls by a side effect. *)
Definition spy {R} (name : string) (f : val → M R) : val → M R :=
  λ arg, (emit (Call name arg) ;;; f arg).

(** Every handler of an object literal instrumented under its own key. *)
Definition spy_all {R} (props : list (string * (val → M R))) : list (string * (val → M R)) :=
  (λ kv, (kv.1, spy kv.1 kv.2)) <$> props.

(** A computation that leaves the trace as it found it. *)
Definition quiet {A} (m : M A) : Prop := ∀ w, trace (m w).2 = trace w.

(** A computation that leaves the object at [l] as it found it. *)
Definition preserves {A} (l : loc) (m : M A) : Prop :=
  ∀ w o, heap w !! l = Some o → heap (m w).2 !! l = Some o.

(** A computation that, where [l] is in the store, returns another location. *)
Definition avoids (l : loc) (m : M loc) : Prop :=
  ∀ w o l' w', heap w !! l = Some o → m w = (Return l', w') → l' ≠ l.

(** The remainder of [n] modulo 2 is 0. *)
Definition is_even (n : float) : bool := PrimFloat.eqb (number_rem n 2) 0.

(** ** Caller code that writes *)

(** [v.name = x] in a handler or mapper of the caller's.  The [readonly] of
    the class fields is a compile-time annotation on the class types; the
    argument type of a handler, [{ value: T }], does not carry it, and at run
    time the property is an ordinary writable one.  In the strict mode of the
    module, writing a property of [undefined] or of a primitive throws. *)
Definition set_field (v : val) (name : string) (x : val) : M unit :=
  λ w, match v with
       | VRef l =>
           match heap w !! l with
           | Some o =>
               (Return tt,
                World (<[l := Object (proto o) (<[name := x]> (fields o))]> (heap w))
                  (trace w))
           | None => (Throw (TypeError "dangling reference"), w)
           end
       | VUndef => (Throw (TypeError "Cannot set properties of undefined"), w)
       | _ => (Throw (TypeError "Cannot create property"), w)
       end.

(** { Some: (x) => { x.value = 7 }, None: () => {} } *)
Definition overwriting_handlers : list (string * (val → M unit)) :=
  [ ("Some"%string, λ x, set_field x "value" (VNum 7));
    ("None"%string, λ _, ret tt) ].

(** ** Sample data *)

(** The world after [Result.ok(5)]: the instance is object 1. *)
Definition ok5 : object := Object COk {[ "tag" := VStr "Ok"; "value" := VNum 5 ]}.

Definition world_ok5 : world := (Result_ok (VNum 5) empty_world).2.

(** The world after [Option.some(42)]: the instance is object 1. *)
Definition some42 : object :=
  Object CSome {[ "tag" := VStr "Some"; "value" := VNum 42 ]}.

Definition world_some42 : world := (Option_some (VNum 42) empty_world).2.

(** Handlers that name the case they were called for, [Err] written first. *)
Definition case_handlers : list (string * (val → M string)) :=
  [ ("Err"%string, λ _, ret "was Err"%string);
    ("Ok"%string, λ _, ret "was Ok"%string) ].

(** const numbers = [1, 3, 5, 7, 8, 9]; and the same without its even element. *)
Definition demo_numbers : list float := [1; 3; 5; 7; 8; 9]%float.

Definition odd_numbers : list float := [1; 3; 5; 7; 9]%float.

(** (x) => x * 2 *)
Definition double (x : val) : M val :=
  ret (match x with VNum n => VNum (n * 2) | _ => VNum nan end).

(** ** The rest of the demo *)

(** The handlers of [evenNumber.match(...)]: the message about the even number. *)
Definition even_handlers : gmap string (val → M string) :=
  obj_literal [
    ("Some"%string, λ arg, let* value := get_field arg "value" in
                           ret ("Found even number: " +:+ to_string value));
    ("None"%string, λ _, ret "No even number found"%string) ].

(** const evenNumber = findEven(numbers);
    const evenMessage = evenNumber.match(...); console.log(evenMessage); *)
Definition print_even (numbers : list float) : M loc :=
  let* evenNumber := findEven numbers in
  let* evenMessage := Variant_match evenNumber even_handlers in
  (console_log evenMessage ;;; ret evenNumber).

(** The user-defined variant [Shape]: [new Circle(radius)],
    [new Rectangle(width, height)], [new Triangle(base, height)]. *)
Definition Circle_new (radius : float) : M loc :=
  alloc (Object (CUser "Circle")
           {[ "tag" := VStr "Circle"; "radius" := VNum radius ]}).

Definition Rectangle_new (width height : float) : M loc :=
  alloc (Object (CUser "Rectangle")
           {[ "tag" := VStr "Rectangle"; "width" := VNum width;
              "height" := VNum height ]}).

Definition Triangle_new (base height : float) : M loc :=
  alloc (Object (CUser "Triangle")
           {[ "tag" := VStr "Triangle"; "base" := VNum base;
              "height" := VNum height ]}).

Definition Shape_circle (radius : float) : M loc := Circle_new radius.

Definition Shape_rectangle (width height : float) : M loc :=
  Rectangle_new width height.

Definition Shape_triangle (base height : float) : M loc :=
  Triangle_new base height.

(** The handlers of the [shapes.forEach] loop; each one logs and returns
    nothing. *)
Definition shape_handlers : gmap string (val → M unit) :=
  obj_literal [
    ("Circle"%string, λ arg,
       let* radius := get_field arg "radius" in
       console_log ("Circle with radius " +:+ to_string radius));
    ("Rectangle"%string, λ arg,
       let* width := get_field arg "width" in
       let* height := get_field arg "height" in
       console_log ("Rectangle with width " +:+ to_string width
                      +:+ " and height " +:+ to_string height));
    ("Triangle"%string, λ arg,
       let* base := get_field arg "base" in
       let* height := get_field arg "height" in
       console_log ("Triangle with base " +:+ to_string base
                      +:+ " and height " +:+ to_string height)) ].

Definition print_shape (shape : loc) : M unit :=
  Variant_match shape shape_handlers.

(** const shapes = [Shape.circle(5), Shape.rectangle(4, 6), Shape.triangle(3, 4)];
    shapes.forEach(...) *)
Definition demo_shapes : M unit :=
  let* circle := Shape_circle 5 in
  let* rectangle := Shape_rectangle 4 6 in
  let* triangle := Shape_triangle 3 4 in
  Array_forEach print_shape [circle; rectangle; triangle].

(** ** The test suite's area handlers *)

(** [Math.PI]: the double nearest to pi. *)
Definition Math_PI : float := 0x1.921fb54442d18p+1%float.

(** [a * b] on two numbers; the operands of this program are numbers by
    their declared type, and anything else is given [NaN] here. *)
Definition number_mul (a b : val) : val :=
  match a, b with
  | VNum x, VNum y => VNum (x * y)
  | _, _ => VNum nan
  end.

(** The handlers of 'should handle different shapes in an array'. *)
Definition area_handlers : gmap string (val → M string) :=
  obj_literal [
    ("Circle"%string, λ arg,
       let* radius := get_field arg "radius" in
       ret ("Circle: "
              +:+ to_string (number_mul (number_mul (VNum Math_PI) radius) radius)));
    ("Rectangle"%string, λ arg,
       let* width := get_field arg "width" in
       let* height := get_field arg "height" in
       ret ("Rectangle: " +:+ to_string (number_mul width height)));
    ("Triangle"%string, λ arg,
       let* base := get_field arg "base" in
       let* height := get_field arg "height" in
       ret ("Triangle: "
              +:+ to_string (number_mul (number_mul (VNum 0.5) base) height))) ].

(** [array.map(callback)]: the results in array order. *)
Fixpoint Array_map {A B} (callback : A → M B) (array : list A) : M (list B) :=
  match array with
  | [] => ret []
  | x :: rest =>
      let* y := callback x in
      let* ys := Array_map callback rest in
      ret (y :: ys)
  end.

(** ** Further notions for the properties *)

(** The property names every object finds on [Object.prototype]. *)
Definition Object_prototype_keys : list string :=
  [ "constructor"; "__defineGetter__"; "__defineSetter__"; "hasOwnProperty";
    "__lookupGetter__"; "__lookupSetter__"; "isPrototypeOf";
    "propertyIsEnumerable"; "toString"; "valueOf"; "__proto__";
    "toLocaleString" ]%string.

(** The tag the class of the library writes into its instances. *)
Definition well_tagged (o : object) : Prop :=
  match proto o with
  | COk => fields o !! "tag" = Some (VStr "Ok")
  | CErr => fields o !! "tag" = Some (VStr "Err")
  | CSome => fields o !! "tag" = Some (VStr "Some")
  | CNone => fields o !! "tag" = Some (VStr "None")
  | CUser _ => True
  end.

Definition store_well_tagged (w : world) : Prop :=
  ∀ l o, heap w !! l = Some o → well_tagged o.

(** A computation that keeps the store well tagged. *)
Definition keeps_tags {A} (m : M A) : Prop :=
  ∀ w, store_well_tagged w → store_well_tagged (m w).2.

(** The number is [+0] or [-0]. *)
Definition is_zero_number (b : float) : Prop :=
  ∃ s, Prim2SF b = S754_zero s.

(** Handlers that forget the [Ok] case. *)
Definition err_only_handlers : list (string * (val → M string)) :=
  [ ("Err"%string, λ _, ret "was Err"%string) ].

(** An [Ok] or an [Err]. *)
Definition is_result (o : object) : Prop :=
  fields o !! "tag" = Some (VStr "Ok") ∨ fields o !! "tag" = Some (VStr "Err").

(** The line the [results.forEach] loop is to print for a result. *)
Definition result_message (o : object) : string :=
  match fields o !! "tag" with
  | Some (VStr "Ok") => "Result: " +:+ to_string (default VUndef (fields o !! "value"))
  | _ => "Error: " +:+ to_string (default VUndef (fields o !! "error"))
  end.

(** * Properties *)

(** ** The models of the built-ins on small inputs *)

Example number_to_string_examples :
  number_to_string <$> [5; 10 / 2; 7 / 3; -2.5; 100; 1 / 0; 0 / 0; 1e21; 1 / 8]%float
  = [ "5"; "5"; "2.3333333333333335"; "-2.5"; "100"; "Infinity"; "NaN";
      "1e+21"; "0.125" ]%string.
Proof. vm_compute. reflexivity. Qed.

Example number_rem_examples :
  (λ n, number_rem n 2) <$> [7; 8; -7; 2.5; 0; 1 / 0]%float
  = [1; 0; -1; 0.5; 0; nan]%float.
Proof. vm_compute. reflexivity. Qed.

Example is_even_examples :
  is_even <$> [1; 8; -4; 0; 2.5; 1 / 0; 0 / 0]%float
  = [false; true; true; true; false; false; false].
Proof. vm_compute. reflexivity. Qed.

(** End-to-end scenario 3: [findEven] on the demo's array. *)
Example findEven_demo_numbers :
  ((let* even := findEven demo_numbers in
    let* is_some := Option_isSome even in
    let* or_zero := Option_unwrapOr even (VNum 0) in
    let* doubled := Option_map even double in
    let* twice := Option_unwrap doubled in
    ret (is_some, or_zero, twice)) empty_world).1
  = Return (true, VNum 8, VNum 16).
Proof. vm_compute. reflexivity. Qed.

(** End-to-end scenario 4: no even element. *)
Example findEven_odd_numbers :
  ((let* even := findEven odd_numbers in
    let* or_zero := Option_unwrapOr even (VNum 0) in
    ret or_zero) empty_world).1 = Return (VNum 0)
  ∧ ((let* even := findEven odd_numbers in Option_unwrap even) empty_world).1
    = Throw (Error "Cannot unwrap None").
Proof. split; vm_compute; reflexivity. Qed.

(** ** Object literals *)

Lemma obj_literal_snoc {V} (props : list (string * V)) k v :
  obj_literal (props ++ [(k, v)]) = <[k := v]> (obj_literal props).
Proof. unfold obj_literal. by rewrite foldl_snoc. Qed.

Lemma obj_literal_reverse {V} (props : list (string * V)) :
  obj_literal props = list_to_map (reverse props).
Proof.
  induction props as [|[k v] props IH] using rev_ind; [done|].
  by rewrite obj_literal_snoc, reverse_snoc, list_to_map_cons, IH.
Qed.

Lemma obj_literal_lookup {V} (props : list (string * V)) k v :
  NoDup props.*1 → (k, v) ∈ props → obj_literal props !! k = Some v.
Proof.
  intros Hnd Hin. rewrite obj_literal_reverse.
  apply elem_of_list_to_map_1.
  - by rewrite fmap_reverse, reverse_Permutation.
  - by rewrite elem_of_reverse.
Qed.

Lemma obj_literal_perm {V} (props props' : list (string * V)) :
  NoDup props.*1 → props' ≡ₚ props → obj_literal props' = obj_literal props.
Proof.
  intros Hnd Hperm. rewrite !obj_literal_reverse.
  apply list_to_map_proper.
  - by rewrite fmap_reverse, reverse_Permutation, Hperm.
  - by rewrite !reverse_Permutation.
Qed.

Lemma obj_literal_pair_lookup {V} (k1 k2 k : string) (a b : V) :
  obj_literal [(k1, a); (k2, b)] !! k
  = if decide (k = k2) then Some b
    else if decide (k = k1) then Some a else None.
Proof.
  unfold obj_literal. simpl.
  repeat case_decide; subst; simplify_map_eq; done.
Qed.

Lemma spy_all_keys {R} (props : list (string * (val → M R))) :
  (spy_all props).*1 = props.*1.
Proof. unfold spy_all. rewrite <- list_fmap_compose. by apply list_fmap_ext. Qed.

Lemma spy_all_elem {R} (props : list (string * (val → M R))) k h :
  (k, h) ∈ props → (k, spy k h) ∈ spy_all props.
Proof.
  intros Hin. unfold spy_all. apply list_elem_of_fmap. by exists (k, h).
Qed.

(** ** Dispatch *)

Lemma get_field_own (w : world) (l : loc) (o : object) (name : string) :
  heap w !! l = Some o →
  get_field (VRef l) name w = (Return (default VUndef (fields o !! name)), w).
Proof. intros Hl. unfold get_field. by rewrite Hl. Qed.

Lemma Variant_match_found {R} (w : world) (this : loc) (o : object) (tag : val)
    (handlers : gmap string (val → M R)) (handler : val → M R) :
  heap w !! this = Some o →
  fields o !! "tag" = Some tag →
  handlers !! to_string tag = Some handler →
  Variant_match this handlers w = handler (VRef this) w.
Proof.
  intros Hl Ht Hh. unfold Variant_match, bind.
  rewrite (get_field_own _ _ _ _ Hl), Ht. simpl. by rewrite Hh.
Qed.

Lemma Variant_match_missing {R} (w : world) (this : loc) (o : object) (tag : val)
    (handlers : gmap string (val → M R)) :
  heap w !! this = Some o →
  fields o !! "tag" = Some tag →
  handlers !! to_string tag = None →
  Variant_match this handlers w = (Throw (TypeError "handler is not a function"), w).
Proof.
  intros Hl Ht Hh. unfold Variant_match, bind.
  rewrite (get_field_own _ _ _ _ Hl), Ht. simpl. by rewrite Hh.
Qed.

Section Dispatch.
Context {R : Type}.

(** The declared case names of a variant type. *)
Variable cases : list string.
Hypothesis cases_distinct : NoDup cases.

(** C1.  Take a variant instance [this] of discriminant [t], one of the
    declared [cases], and an object literal [props] with exactly one handler
    per declared case.  Then exactly one handler of [props] has the key [t];
    [match] is one call of that handler on the instance (so it returns what
    the handler returns, and does what the handler does), every field of
    the instance reads the same off the argument, the order in which the
    handlers are written does not matter, and when every handler records its
    calls, the record made by [match] is that single call. *)
Theorem match_invokes_selected_handler_once
    (w : world) (this : loc) (o : object) (t : string)
    (props : list (string * (val → M R))) :
  heap w !! this = Some o →
  fields o !! "tag" = Some (VStr t) →
  t ∈ cases →
  props.*1 ≡ₚ cases →
  ∃ handler,
    (t, handler) ∈ props
    ∧ (∀ h, (t, h) ∈ props → h = handler)
    ∧ Variant_match this (obj_literal props) w = handler (VRef this) w
    ∧ (∀ name x, fields o !! name = Some x →
         get_field (VRef this) name w = (Return x, w))
    ∧ (∀ props', props' ≡ₚ props →
         Variant_match this (obj_literal props') w = handler (VRef this) w)
    ∧ ((∀ k h arg, (k, h) ∈ props → quiet (h arg)) →
         trace (Variant_match this (obj_literal (spy_all props)) w).2
         = trace w ++ [Call t (VRef this)]).
Proof.
  intros Hl Ht Hcase Hkeys.
  assert (Hnd : NoDup props.*1) by (by rewrite Hkeys).
  assert (Hin : t ∈ props.*1) by (by rewrite Hkeys).
  apply list_elem_of_fmap in Hin as [[k handler] [-> Hin]]; simpl in *.
  pose proof (obj_literal_lookup _ _ _ Hnd Hin) as Hlook.
  exists handler. split_and!.
  - done.
  - intros h Hh. pose proof (obj_literal_lookup _ _ _ Hnd Hh). congruence.
  - by apply (Variant_match_found _ _ o (VStr k)).
  - intros name x Hx. unfold get_field. by rewrite Hl, Hx.
  - intros props' Hperm. rewrite (obj_literal_perm _ _ Hnd Hperm).
    by apply (Variant_match_found _ _ o (VStr k)).
  - intros Hquiet.
    rewrite (Variant_match_found _ _ o (VStr k) _ (spy k handler)); try done.
    + unfold spy, bind, emit. simpl. by rewrite (Hquiet k handler).
    + simpl. apply obj_literal_lookup; [by rewrite spy_all_keys|].
      by apply spy_all_elem.
Qed.

End Dispatch.

Lemma match_invokes_selected_handler_once_witness :
  heap world_ok5 !! 1%positive = Some ok5
  ∧ fields ok5 !! "tag"%string = Some (VStr "Ok")
  ∧ case_handlers.*1 ≡ₚ ["Ok"; "Err"]%string
  ∧ ∃ handler,
      ("Ok"%string, handler) ∈ case_handlers
      ∧ (∀ h, ("Ok"%string, h) ∈ case_handlers → h = handler)
      ∧ Variant_match 1 (obj_literal case_handlers) world_ok5
        = handler (VRef 1) world_ok5
      ∧ (∀ name x, fields ok5 !! name = Some x →
           get_field (VRef 1) name world_ok5 = (Return x, world_ok5))
      ∧ (∀ props', props' ≡ₚ case_handlers →
           Variant_match 1 (obj_literal props') world_ok5
           = handler (VRef 1) world_ok5)
      ∧ trace (Variant_match 1 (obj_literal (spy_all case_handlers)) world_ok5).2
        = trace world_ok5 ++ [Call "Ok" (VRef 1)].
Proof.
  assert (Hnd : NoDup ["Ok"; "Err"]%string).
  { apply NoDup_cons. split; [|apply NoDup_singleton].
    intros Hin%list_elem_of_singleton. discriminate Hin. }
  assert (Hperm : case_handlers.*1 ≡ₚ ["Ok"; "Err"]%string) by apply perm_swap.
  split_and!; [reflexivity | reflexivity | exact Hperm |].
  destruct (match_invokes_selected_handler_once ["Ok"; "Err"]%string Hnd
              world_ok5 1%positive ok5 "Ok"%string case_handlers
              eq_refl eq_refl (list_elem_of_here _ _) Hperm)
    as (handler & Hin & Huniq & Hrun & Hfields & Hany & Htrace).
  exists handler.
  split_and!; [exact Hin | exact Huniq | exact Hrun | exact Hfields | exact Hany |].
  apply Htrace. intros k h arg Hk. unfold case_handlers in Hk.
  rewrite !elem_of_cons, elem_of_nil in Hk.
  destruct Hk as [[= _ ->] | [[= _ ->] | []]]; by intros w.
Defined.

(** ** Construction *)

Lemma alloc_fresh (w : world) : heap w !! fresh (dom (heap w)) = None.
Proof. apply not_elem_of_dom, is_fresh. Qed.

Lemma alloc_lookup (o : object) (w : world) :
  heap (alloc o w).2 !! fresh (dom (heap w)) = Some o.
Proof. simpl. apply lookup_insert_eq. Qed.

(** The handlers [map] and [flatMap] pass to [match]. *)
Lemma Option_map_Some (w : world) (this : loc) (o : object) (f : val → M val) :
  heap w !! this = Some o →
  fields o !! "tag" = Some (VStr "Some") →
  Option_map this f w
  = (let* value := get_field (VRef this) "value" in
     let* u := f value in
     Option_some u) w.
Proof.
  intros Hl Ht. unfold Option_map.
  erewrite Variant_match_found; [| exact Hl | exact Ht | reflexivity].
  reflexivity.
Qed.

Lemma Option_map_None (w : world) (this : loc) (o : object) (f : val → M val) :
  heap w !! this = Some o →
  fields o !! "tag" = Some (VStr "None") →
  Option_map this f w = Option_none w.
Proof.
  intros Hl Ht. unfold Option_map.
  erewrite Variant_match_found; [| exact Hl | exact Ht | reflexivity].
  reflexivity.
Qed.

Lemma Option_flatMap_Some (w : world) (this : loc) (o : object) (f : val → M loc) :
  heap w !! this = Some o →
  fields o !! "tag" = Some (VStr "Some") →
  Option_flatMap this f w
  = (let* value := get_field (VRef this) "value" in f value) w.
Proof.
  intros Hl Ht. unfold Option_flatMap.
  erewrite Variant_match_found; [| exact Hl | exact Ht | reflexivity].
  reflexivity.
Qed.

Lemma Option_flatMap_None (w : world) (this : loc) (o : object) (f : val → M loc) :
  heap w !! this = Some o →
  fields o !! "tag" = Some (VStr "None") →
  Option_flatMap this f w = Option_none w.
Proof.
  intros Hl Ht. unfold Option_flatMap.
  erewrite Variant_match_found; [| exact Hl | exact Ht | reflexivity].
  reflexivity.
Qed.

(** Runs a method on an object whose store entry is known. *)
Ltac run_method :=
  unfold Option_isSome, Option_isNone, Option_unwrap, Option_unwrapOr,
    Some_isSome, Some_isNone, Some_unwrap, Some_unwrapOr,
    None_isSome, None_isNone, None_unwrap, None_unwrapOr,
    bind, class_of, get_field, ret, throw;
  simpl; repeat (rewrite lookup_insert_eq; simpl); try reflexivity.

(** ** The handler's argument *)

(** C9.  What [match] hands to the selected handler is the reference to
    the instance itself: the handler's argument carries the field [tag]
    next to the payload fields, and a handler that records its argument
    records that reference.  So the [Ok] handler of [Result.ok(v)] reads
    both [tag = 'Ok'] and [value = v] off its argument. *)
Theorem match_passes_instance_itself :
  (∀ R (w : world) (this : loc) (o : object) (t : string)
     (handlers : gmap string (val → M R)) (h : val → M R),
     heap w !! this = Some o →
     fields o !! "tag" = Some (VStr t) →
     handlers !! t = Some h →
     Variant_match this handlers w = h (VRef this) w
     ∧ get_field (VRef this) "tag" w = (Return (VStr t), w)
     ∧ (∀ name x, fields o !! name = Some x →
          get_field (VRef this) name w = (Return x, w))
     ∧ (quiet (h (VRef this)) →
          trace (Variant_match this (<[t := spy t h]> handlers) w).2
          = trace w ++ [Call t (VRef this)]))
  ∧ (∀ (w : world) (v : val),
       ∃ l w1,
         Result_ok v w = (Return l, w1)
         ∧ Variant_match l (obj_literal [
             ("Ok"%string, λ arg, let* tag := get_field arg "tag" in
                                  let* value := get_field arg "value" in
                                  ret (arg, tag, value));
             ("Err"%string, λ arg, ret (arg, VUndef, VUndef)) ]) w1
           = (Return (VRef l, VStr "Ok", v), w1)).
Proof.
  split.
  - intros R w this o t handlers h Hl Ht Hh. split_and!.
    + by apply (Variant_match_found _ _ o (VStr t)).
    + unfold get_field. by rewrite Hl, Ht.
    + intros name x Hx. unfold get_field. by rewrite Hl, Hx.
    + intros Hquiet.
      rewrite (Variant_match_found _ _ o (VStr t) _ (spy t h) Hl Ht).
      * unfold spy, bind, emit. simpl. by rewrite Hquiet.
      * simpl. apply lookup_insert_eq.
  - intros w v. eexists _, _. split; [reflexivity|].
    erewrite Variant_match_found; [| apply alloc_lookup | reflexivity | reflexivity].
    run_method.
Qed.

Lemma match_passes_instance_itself_witness :
  heap world_ok5 !! 1%positive = Some ok5
  ∧ obj_literal case_handlers !! "Ok"%string = Some (λ _, ret "was Ok"%string)
  ∧ Variant_match 1 (obj_literal case_handlers) world_ok5
    = (Return "was Ok"%string, world_ok5)
  ∧ get_field (VRef 1) "tag" world_ok5 = (Return (VStr "Ok"), world_ok5)
  ∧ (∀ name x, fields ok5 !! name = Some x →
       get_field (VRef 1) name world_ok5 = (Return x, world_ok5))
  ∧ trace (Variant_match 1
             (<["Ok"%string := spy "Ok" (λ _, ret "was Ok"%string)]>
                (obj_literal case_handlers)) world_ok5).2
    = trace world_ok5 ++ [Call "Ok" (VRef 1)].
Proof.
  split; [reflexivity|]. split; [reflexivity|].
  destruct (proj1 match_passes_instance_itself string world_ok5 1%positive ok5
              "Ok"%string (obj_literal case_handlers) (λ _, ret "was Ok"%string)
              eq_refl eq_refl eq_refl)
    as (Hrun & Htag & Hfields & Htrace).
  split_and!; [exact Hrun | exact Htag | exact Hfields |].
  apply Htrace. by intros w.
Defined.

(** ** [Option] *)

(** C2.  On the instance [Option.none()] returns, [isSome()] is false,
    [isNone()] is true, [unwrapOr(d)] is [d], and [unwrap()] does not return:
    it throws an [Error] whose message is always 'Cannot unwrap None'. *)
Theorem none_observers (w : world) (d : val) :
  ∃ l w1,
    Option_none w = (Return l, w1)
    ∧ Option_isSome l w1 = (Return false, w1)
    ∧ Option_isNone l w1 = (Return true, w1)
    ∧ Option_unwrapOr l d w1 = (Return d, w1)
    ∧ Option_unwrap l w1 = (Throw (Error "Cannot unwrap None"), w1).
Proof.
  eexists _, _. split; [reflexivity|].
  split_and!; run_method.
Qed.

(** C6.  On the instance [Option.some(v)] returns, [isSome()] is true,
    [isNone()] is false, and [unwrap()] and [unwrapOr(d)] are both [v]. *)
Theorem some_observers (w : world) (v d : val) :
  ∃ l w1,
    Option_some v w = (Return l, w1)
    ∧ Option_isSome l w1 = (Return true, w1)
    ∧ Option_isNone l w1 = (Return false, w1)
    ∧ Option_unwrap l w1 = (Return v, w1)
    ∧ Option_unwrapOr l d w1 = (Return v, w1).
Proof.
  eexists _, _. split; [reflexivity|].
  split_and!; run_method.
Qed.

(** ** [Result] *)

(** C3.  Matching [Result.ok(v)] with an [Ok] handler that reads [value]
    gives back [v], and matching [Result.err(e)] with an [Err] handler that
    reads [error] gives back [e]; the other handler's sentinel is not
    returned. *)
Theorem result_match_roundtrip (w : world) (v e sentinel : val) :
  (∃ l w1,
     Result_ok v w = (Return l, w1)
     ∧ Variant_match l (obj_literal [
         ("Ok"%string, λ x, get_field x "value");
         ("Err"%string, λ _, ret sentinel) ]) w1 = (Return v, w1))
  ∧ (∃ l w1,
     Result_err e w = (Return l, w1)
     ∧ Variant_match l (obj_literal [
         ("Ok"%string, λ _, ret sentinel);
         ("Err"%string, λ x, get_field x "error") ]) w1 = (Return e, w1)).
Proof.
  split; eexists _, _; (split; [reflexivity|]).
  - erewrite Variant_match_found;
      [| apply alloc_lookup | reflexivity | reflexivity].
    run_method.
  - erewrite Variant_match_found;
      [| apply alloc_lookup | reflexivity | reflexivity].
    run_method.
Qed.

(** C4.  [map] on [Option.some(v)] calls [f] on [v] and wraps what it
    returns in a new [Some], so that [unwrap()] on the result is [f(v)];
    [map] on [Option.none()] is [Option.none()] whatever [f] is, and an [f]
    that records its calls records none. *)
Theorem option_map_functor (w : world) (v : val) (f : val → M val) :
  (∃ l w1,
     Option_some v w = (Return l, w1)
     ∧ Option_map l f w1 = (let* u := f v in Option_some u) w1
     ∧ ∀ u w2, f v w1 = (Return u, w2) →
         ∃ l' w3,
           Option_map l f w1 = (Return l', w3)
           ∧ heap w3 !! l'
             = Some (Object CSome {[ "tag" := VStr "Some"; "value" := u ]})
           ∧ Option_isSome l' w3 = (Return true, w3)
           ∧ Option_unwrap l' w3 = (Return u, w3))
  ∧ (∃ l w1,
       Option_none w = (Return l, w1)
       ∧ Option_map l f w1 = Option_none w1
       ∧ (∃ l' w2,
            Option_map l f w1 = (Return l', w2)
            ∧ Option_isNone l' w2 = (Return true, w2))
       ∧ trace (Option_map l (spy "f" f) w1).2 = trace w1).
Proof.
  split; eexists _, _; (split; [reflexivity|]).
  - assert (Hmap : ∀ g,
      Option_map (fresh (dom (heap w))) g (Option_some v w).2
      = (let* u := g v in Option_some u) (Option_some v w).2).
    { intros g. erewrite Option_map_Some;
        [| apply alloc_lookup | reflexivity]. run_method. }
    split; [apply Hmap|].
    intros u w2 Hf. rewrite Hmap. unfold bind. simpl in *. rewrite Hf.
    eexists _, _. split; [reflexivity|]. split_and!; run_method.
  - assert (Hmap : ∀ g,
      Option_map (fresh (dom (heap w))) g (Option_none w).2
      = Option_none (Option_none w).2).
    { intros g. erewrite Option_map_None;
        [| apply alloc_lookup | reflexivity]. reflexivity. }
    split; [apply Hmap|]. split.
    + eexists _, _. split; [apply Hmap|]. run_method.
    + by rewrite Hmap.
Qed.

Lemma option_map_functor_witness :
  double (VNum 42) world_some42 = (Return (VNum 84), world_some42)
  ∧ ∃ l' w3,
      Option_map 1 double world_some42 = (Return l', w3)
      ∧ heap w3 !! l'
        = Some (Object CSome {[ "tag" := VStr "Some"; "value" := VNum 84 ]})
      ∧ Option_isSome l' w3 = (Return true, w3)
      ∧ Option_unwrap l' w3 = (Return (VNum 84), w3).
Proof.
  split; [reflexivity|].
  destruct (option_map_functor empty_world (VNum 42) double)
    as [(l & w1 & Hsome & _ & Hreturns) _].
  injection Hsome as <- <-.
  apply (Hreturns (VNum 84) world_some42). reflexivity.
Defined.


(** C5.  [flatMap] on [Option.some(v)] is the call [f(v)] itself: the very
    object [f] returns, not wrapped again; [flatMap] on [Option.none()] is
    [Option.none()] whatever [f] is, and an [f] that records its calls
    records none. *)
Theorem option_flatMap_left_identity (w : world) (v : val) (f : val → M loc) :
  (∃ l w1,
     Option_some v w = (Return l, w1)
     ∧ Option_flatMap l f w1 = f v w1)
  ∧ (∃ l w1,
       Option_none w = (Return l, w1)
       ∧ Option_flatMap l f w1 = Option_none w1
       ∧ (∃ l' w2,
            Option_flatMap l f w1 = (Return l', w2)
            ∧ Option_isNone l' w2 = (Return true, w2))
       ∧ trace (Option_flatMap l (spy "f" f) w1).2 = trace w1).
Proof.
  split; eexists _, _; (split; [reflexivity|]).
  - erewrite Option_flatMap_Some; [| apply alloc_lookup | reflexivity].
    run_method.
  - assert (Hflat : ∀ g,
      Option_flatMap (fresh (dom (heap w))) g (Option_none w).2
      = Option_none (Option_none w).2).
    { intros g. erewrite Option_flatMap_None;
        [| apply alloc_lookup | reflexivity]. reflexivity. }
    split; [apply Hflat|]. split.
    + eexists _, _. split; [apply Hflat|]. run_method.
    + by rewrite Hflat.
Qed.

(** ** The demo *)

(** C7.  [divide(10, 2)] returns an [Ok] holding 5, which the demo handlers
    turn into 'Result: 5'; [divide(1, 0)] returns an [Err] holding
    'Division by zero', which they turn into 'Error: Division by zero'; and
    these are the first two lines the [forEach] loop prints. *)
Theorem divide_scenarios (w : world) :
  (∃ l w1,
     divide 10 2 w = (Return l, w1)
     ∧ heap w1 !! l = Some (Object COk {[ "tag" := VStr "Ok"; "value" := VNum 5 ]})
     ∧ Variant_match l message_handlers w1 = (Return "Result: 5"%string, w1))
  ∧ (∃ l w1,
       divide 1 0 w = (Return l, w1)
       ∧ heap w1 !! l
         = Some (Object CErr {[ "tag" := VStr "Err";
                                "error" := VStr "Division by zero" ]})
       ∧ Variant_match l message_handlers w1
         = (Return "Error: Division by zero"%string, w1))
  ∧ trace (demo_results empty_world).2
    = [ ConsoleLog "Result: 5"; ConsoleLog "Error: Division by zero";
        ConsoleLog "Result: 2.3333333333333335" ].
Proof.
  split_and!.
  - eexists _, _. split; [reflexivity|]. split; [apply alloc_lookup|].
    erewrite Variant_match_found; [| apply alloc_lookup | reflexivity | reflexivity].
    run_method.
  - eexists _, _. split; [reflexivity|]. split; [apply alloc_lookup|].
    erewrite Variant_match_found; [| apply alloc_lookup | reflexivity | reflexivity].
    run_method.
  - vm_compute. reflexivity.
Qed.

Lemma Array_find_spec (p : float → bool) (l : list float) :
  (∃ i n,
     l !! i = Some n ∧ p n = true
     ∧ (∀ j m, (j < i)%nat → l !! j = Some m → p m = false)
     ∧ Array_find p l = VNum n)
  ∨ ((∀ n, n ∈ l → p n = false) ∧ Array_find p l = VUndef).
Proof.
  induction l as [|x l IH]; simpl.
  - right. split; [|done]. intros n Hn. by apply elem_of_nil in Hn.
  - destruct (p x) eqn:Hx.
    + left. exists 0%nat, x. split_and!; try done. intros j m Hj. lia.
    + destruct IH as [(i & n & Hi & Hn & Hfirst & Hfind) | [Hnone Hfind]].
      * left. exists (S i), n. split_and!; try done.
        intros [|j] m Hj Hm; simpl in *; [congruence|].
        apply (Hfirst j); [lia | done].
      * right. split; [|done]. intros n [->|Hn]%elem_of_cons; auto.
Qed.

(** C10.  When some element of [numbers] has remainder 0 modulo 2,
    [findEven] returns a [Some] holding the first such element (the one at
    the smallest index); when none has, it returns a [None]. *)
Theorem findEven_first_even (numbers : list float) (w : world) :
  ((∃ n, n ∈ numbers ∧ is_even n = true) →
     ∃ i n l w1,
       numbers !! i = Some n ∧ is_even n = true
       ∧ (∀ j m, (j < i)%nat → numbers !! j = Some m → is_even m = false)
       ∧ findEven numbers w = (Return l, w1)
       ∧ heap w1 !! l
         = Some (Object CSome {[ "tag" := VStr "Some"; "value" := VNum n ]})
       ∧ Option_unwrap l w1 = (Return (VNum n), w1))
  ∧ ((∀ n, n ∈ numbers → is_even n = false) →
     ∃ l w1,
       findEven numbers w = (Return l, w1)
       ∧ heap w1 !! l = Some (Object CNone {[ "tag" := VStr "None" ]})
       ∧ Option_isNone l w1 = (Return true, w1)).
Proof.
  unfold findEven.
  destruct (Array_find_spec is_even numbers)
    as [(i & n & Hi & Hn & Hfirst & Hfind) | [Hnone Hfind]].
  - split.
    + intros _. exists i, n. change (λ n, strict_eq (VNum (number_rem n 2)) (VNum 0))
        with is_even. rewrite Hfind. simpl.
      eexists _, _. split_and!; try done; [apply alloc_lookup | run_method].
    + intros Hall. rewrite (Hall n) in Hn; [done|].
      apply list_elem_of_lookup. by exists i.
  - split.
    + intros (n & Hin & Hn). by rewrite (Hnone n Hin) in Hn.
    + intros _. change (λ n, strict_eq (VNum (number_rem n 2)) (VNum 0))
        with is_even. rewrite Hfind. simpl.
      eexists _, _. split_and!; try done; [apply alloc_lookup | run_method].
Qed.

Lemma findEven_first_even_witness :
  (∃ i n l w1,
     demo_numbers !! i = Some n ∧ is_even n = true
     ∧ (∀ j m, (j < i)%nat → demo_numbers !! j = Some m →
          is_even m = false)
     ∧ findEven demo_numbers empty_world = (Return l, w1)
     ∧ heap w1 !! l
       = Some (Object CSome {[ "tag" := VStr "Some"; "value" := VNum n ]})
     ∧ Option_unwrap l w1 = (Return (VNum n), w1))
  ∧ (∃ l w1,
       findEven odd_numbers empty_world = (Return l, w1)
       ∧ heap w1 !! l = Some (Object CNone {[ "tag" := VStr "None" ]})
       ∧ Option_isNone l w1 = (Return true, w1)).
Proof.
  split.
  - apply (proj1 (findEven_first_even demo_numbers empty_world)).
    exists 8%float. split; [|reflexivity].
    do 4 apply list_elem_of_further. apply list_elem_of_here.
  - apply (proj2 (findEven_first_even odd_numbers empty_world)).
    intros n Hn.
    repeat (apply elem_of_cons in Hn as [->|Hn]; [reflexivity|]).
    by apply elem_of_nil in Hn.
Defined.


(** ** Immutability *)

Lemma preserves_ret {A} (l : loc) (a : A) : preserves l (ret a).
Proof. by intros w o Hl. Qed.

Lemma preserves_throw {A} (l : loc) (e : error) : preserves l (throw (A := A) e).
Proof. by intros w o Hl. Qed.

Lemma preserves_bind {A B} (l : loc) (m : M A) (k : A → M B) :
  preserves l m → (∀ a, preserves l (k a)) → preserves l (bind m k).
Proof.
  intros Hm Hk w o Hl. specialize (Hm w o Hl). unfold bind.
  destruct (m w) as [[a|e] w']; simpl in *; [by apply Hk | done].
Qed.

Lemma preserves_get_field (l : loc) (v : val) (name : string) :
  preserves l (get_field v name).
Proof.
  intros w o Hl. unfold get_field.
  destruct v as [| | | |l0]; try done. by destruct (heap w !! l0).
Qed.

Lemma preserves_alloc (l : loc) (o' : object) : preserves l (alloc o').
Proof.
  intros w o Hl. simpl. rewrite lookup_insert_ne; [done|].
  intros Heq. rewrite <- Heq, alloc_fresh in Hl. done.
Qed.

Lemma alloc_new (w w' : world) (this l' : loc) (o o' : object) :
  heap w !! this = Some o → alloc o' w = (Return l', w') → l' ≠ this.
Proof.
  intros Hl [= <- _] Heq. rewrite <- Heq, alloc_fresh in Hl. done.
Qed.

Lemma obj_literal_lookup_inv {V} (props : list (string * V)) k v :
  obj_literal props !! k = Some v → (k, v) ∈ props.
Proof.
  rewrite obj_literal_reverse. intros Hk%elem_of_list_to_map_2.
  by apply elem_of_reverse.
Qed.

Lemma preserves_Variant_match {R} (l this : loc) (handlers : gmap string (val → M R)) :
  (∀ k h arg, handlers !! k = Some h → preserves l (h arg)) →
  preserves l (Variant_match this handlers).
Proof.
  intros Hh. unfold Variant_match.
  apply preserves_bind; [apply preserves_get_field|]. intros tag.
  destruct (handlers !! to_string tag) as [h|] eqn:Hk.
  - by apply (Hh (to_string tag)).
  - apply preserves_throw.
Qed.

Create HintDb frame.
#[local] Hint Resolve preserves_ret preserves_throw preserves_bind
  preserves_get_field preserves_alloc : frame.

Lemma preserves_Option_map (l this : loc) (f : val → M val) :
  (∀ v, preserves l (f v)) → preserves l (Option_map this f).
Proof.
  intros Hf. apply preserves_Variant_match. intros k h arg Hk.
  apply obj_literal_lookup_inv in Hk.
  rewrite !elem_of_cons, elem_of_nil in Hk.
  destruct Hk as [[= -> ->] | [[= -> ->] | []]];
    unfold Option_some, Some_new, Option_none, None_new; auto 6 with frame.
Qed.

Lemma preserves_Option_flatMap (l this : loc) (f : val → M loc) :
  (∀ v, preserves l (f v)) → preserves l (Option_flatMap this f).
Proof.
  intros Hf. apply preserves_Variant_match. intros k h arg Hk.
  apply obj_literal_lookup_inv in Hk.
  rewrite !elem_of_cons, elem_of_nil in Hk.
  destruct Hk as [[= -> ->] | [[= -> ->] | []]];
    unfold Option_none, None_new; auto 6 with frame.
Qed.

Lemma Variant_match_cases {R} (this : loc) (handlers : gmap string (val → M R))
    (w : world) :
  (∃ e, Variant_match this handlers w = (Throw e, w))
  ∨ (∃ k h, handlers !! k = Some h
            ∧ Variant_match this handlers w = h (VRef this) w).
Proof.
  unfold Variant_match, bind, get_field.
  destruct (heap w !! this) as [o|]; [|left; eauto].
  destruct (handlers !! to_string (default VUndef (fields o !! "tag")))
    as [h|] eqn:Hk; [right; eauto | left; eauto].
Qed.

Lemma Option_map_cases (this : loc) (f : val → M val) (w : world) :
  (∃ e, Option_map this f w = (Throw e, w))
  ∨ (∃ v, Option_map this f w = (let* u := f v in Option_some u) w)
  ∨ Option_map this f w = Option_none w.
Proof.
  unfold Option_map, Variant_match, bind, get_field.
  destruct (heap w !! this) as [o|] eqn:Hl; [|left; eauto].
  rewrite obj_literal_pair_lookup. repeat case_decide.
  - by right; right.
  - right; left. exists (default VUndef (fields o !! "value")). by rewrite Hl.
  - left; eauto.
Qed.

Lemma Option_flatMap_cases (this : loc) (f : val → M loc) (w : world) :
  (∃ e, Option_flatMap this f w = (Throw e, w))
  ∨ (∃ v, Option_flatMap this f w = f v w)
  ∨ Option_flatMap this f w = Option_none w.
Proof.
  unfold Option_flatMap, Variant_match, bind, get_field.
  destruct (heap w !! this) as [o|] eqn:Hl; [|left; eauto].
  rewrite obj_literal_pair_lookup. repeat case_decide.
  - by right; right.
  - right; left. exists (default VUndef (fields o !! "value")). by rewrite Hl.
  - left; eauto.
Qed.





(** * Further properties of the code *)

(** ** [match] without a handler *)

Lemma obj_literal_lookup_None {V} (props : list (string * V)) k :
  k ∉ props.*1 → obj_literal props !! k = None.
Proof.
  intros Hk. rewrite obj_literal_reverse.
  apply not_elem_of_list_to_map_1. by rewrite fmap_reverse, elem_of_reverse.
Qed.

(** X1.  When the handlers a caller passes have none for the instance's tag
    (and the tag is not the name of a member of [Object.prototype]), [match]
    throws the TypeError 'handler is not a function'; no handler runs, even
    a recording one, and the world is left as it was. *)
Theorem match_without_handler_throws {R} (w : world) (this : loc) (o : object)
    (t : string) (props : list (string * (val → M R))) :
  heap w !! this = Some o →
  fields o !! "tag" = Some (VStr t) →
  t ∉ props.*1 →
  t ∉ Object_prototype_keys →
  Variant_match this (obj_literal props) w
  = (Throw (TypeError "handler is not a function"), w)
  ∧ Variant_match this (obj_literal (spy_all props)) w
    = (Throw (TypeError "handler is not a function"), w).
Proof.
  intros Hl Ht Hmissing _. split.
  - apply (Variant_match_missing _ _ o (VStr t)); try done.
    by apply obj_literal_lookup_None.
  - apply (Variant_match_missing _ _ o (VStr t)); try done.
    apply obj_literal_lookup_None. by rewrite spy_all_keys.
Qed.

Lemma match_without_handler_throws_witness :
  heap world_ok5 !! 1%positive = Some ok5
  ∧ (("Ok" : string) ∉ err_only_handlers.*1)
  ∧ (("Ok" : string) ∉ Object_prototype_keys)
  ∧ Variant_match 1 (obj_literal err_only_handlers) world_ok5
    = (Throw (TypeError "handler is not a function"), world_ok5)
  ∧ Variant_match 1 (obj_literal (spy_all err_only_handlers)) world_ok5
    = (Throw (TypeError "handler is not a function"), world_ok5).
Proof.
  assert (Hkey : ("Ok" : string) ∉ (err_only_handlers.*1)).
  { intros Hin%list_elem_of_singleton. discriminate Hin. }
  assert (Hproto : ("Ok" : string) ∉ Object_prototype_keys).
  { unfold Object_prototype_keys. rewrite !not_elem_of_cons.
    split_and!; try discriminate. apply not_elem_of_nil. }
  split_and!; [reflexivity | exact Hkey | exact Hproto | |];
    apply (match_without_handler_throws world_ok5 1%positive ok5 "Ok"%string
             err_only_handlers eq_refl eq_refl Hkey Hproto).
Defined.

(** ** [map] and [flatMap] together *)

(** X2.  [o.map(f)] is [o.flatMap(x => Option.some(f(x)))]: the same
    outcome and the same world, for every receiver and every [f]. *)
Theorem map_is_flatMap_some (this : loc) (f : val → M val) (w : world) :
  Option_map this f w
  = Option_flatMap this (λ x, let* u := f x in Option_some u) w.
Proof.
  unfold Option_map, Option_flatMap, Variant_match, bind.
  destruct (get_field (VRef this) "tag" w) as [[tag|e] w']; [|done].
  rewrite !obj_literal_pair_lookup. by repeat case_decide.
Qed.

(** X14.  Nothing is caught: when the caller's [f] throws on the value of a
    [Some], [map] and [flatMap] throw the same error, leave the world as [f]
    left it and create no instance; and [match] throws what its handler
    throws. *)
Theorem callbacks_errors_propagate (w w2 : world) (this : loc) (o : object)
    (v : val) (e : error) :
  heap w !! this = Some o →
  fields o !! "tag" = Some (VStr "Some") →
  fields o !! "value" = Some v →
  (∀ (f : val → M val),
     f v w = (Throw e, w2) → Option_map this f w = (Throw e, w2))
  ∧ (∀ (f : val → M loc),
       f v w = (Throw e, w2) → Option_flatMap this f w = (Throw e, w2))
  ∧ (∀ R (some none : val → M R), some (VRef this) w = (Throw e, w2) →
       Variant_match this (obj_literal [("Some"%string, some); ("None"%string, none)]) w
       = (Throw e, w2)).
Proof.
  intros Hl Ht Hv. split_and!.
  - intros f Hf. rewrite (Option_map_Some _ _ _ _ Hl Ht).
    unfold bind. rewrite (get_field_own _ _ _ _ Hl), Hv. simpl. by rewrite Hf.
  - intros f Hf. rewrite (Option_flatMap_Some _ _ _ _ Hl Ht).
    unfold bind. by rewrite (get_field_own _ _ _ _ Hl), Hv.
  - intros R some none Hsome.
    erewrite Variant_match_found; [exact Hsome | exact Hl | exact Ht | reflexivity].
Qed.

Lemma callbacks_errors_propagate_witness :
  heap world_some42 !! 1%positive = Some some42
  ∧ Option_map 1 (λ _, throw (Error "boom")) world_some42
    = (Throw (Error "boom"), world_some42)
  ∧ Option_flatMap 1 (λ _, throw (Error "boom")) world_some42
    = (Throw (Error "boom"), world_some42).
Proof.
  destruct (callbacks_errors_propagate world_some42 world_some42 1%positive some42
              (VNum 42) (Error "boom") eq_refl eq_refl eq_refl)
    as (Hmap & Hflat & _).
  split_and!; [reflexivity | by apply Hmap | by apply Hflat].
Defined.

(** X3.  [flatMap] is associative on a [Some]:
    [o.flatMap(f).flatMap(g)] and [o.flatMap(x => f(x).flatMap(g))] are the
    same computation.  On a [None] neither calls [f] or [g]; the first
    builds two [None]s and the second one. *)
Theorem flatMap_associative (w : world) (this : loc) (o : object)
    (f g : val → M loc) :
  heap w !! this = Some o →
  (fields o !! "tag" = Some (VStr "Some") →
     (let* a := Option_flatMap this f in Option_flatMap a g) w
     = Option_flatMap this (λ x, let* b := f x in Option_flatMap b g) w)
  ∧ (fields o !! "tag" = Some (VStr "None") →
       (let* a := Option_flatMap this f in Option_flatMap a g) w
       = (let* _ := Option_none in Option_none) w
       ∧ Option_flatMap this (λ x, let* b := f x in Option_flatMap b g) w
         = Option_none w).
Proof.
  intros Hl. split; intros Ht.
  - unfold bind at 1.
    rewrite !(Option_flatMap_Some _ _ _ _ Hl Ht). unfold bind.
    rewrite (get_field_own _ _ _ _ Hl). reflexivity.
  - split; [|by apply Option_flatMap_None with o].
    unfold bind. rewrite (Option_flatMap_None _ _ _ _ Hl Ht).
    change (Option_none w) with (alloc (Object CNone {[ "tag" := VStr "None" ]}) w).
    cbv beta iota zeta delta [alloc].
    erewrite Option_flatMap_None; [| apply lookup_insert_eq | reflexivity].
    reflexivity.
Qed.

Lemma flatMap_associative_witness :
  heap world_some42 !! 1%positive = Some some42
  ∧ fields some42 !! "tag"%string = Some (VStr "Some")
  ∧ (let* a := Option_flatMap 1 Option_some in Option_flatMap a (λ _, Option_none))
      world_some42
    = Option_flatMap 1 (λ x, let* b := Option_some x in
                             Option_flatMap b (λ _, Option_none)) world_some42.
Proof.
  split; [reflexivity|]. split; [reflexivity|].
  apply (proj1 (flatMap_associative world_some42 1%positive some42 Option_some
                  (λ _, Option_none) eq_refl)).
  reflexivity.
Defined.

(** X4.  Two [map]s in a row on a [Some] holding [v] run [f(v)], build the
    intermediate [Some], run [g] on what [f] returned and build the final
    [Some]; so with [f] and [g] returning, the final instance holds
    [g(f(v))].  On a [None] they build two [None]s and call neither. *)
Theorem map_twice (w : world) (this : loc) (o : object) (f g : val → M val) :
  heap w !! this = Some o →
  (∀ v, fields o !! "tag" = Some (VStr "Some") →
        fields o !! "value" = Some v →
     (let* a := Option_map this f in Option_map a g) w
     = (let* u := f v in
        let* _ := Option_some u in
        let* t := g u in
        Option_some t) w)
  ∧ (fields o !! "tag" = Some (VStr "None") →
       (let* a := Option_map this f in Option_map a g) w
       = (let* _ := Option_none in Option_none) w).
Proof.
  intros Hl. split.
  - intros v Ht Hv. unfold bind at 1.
    rewrite (Option_map_Some _ _ _ _ Hl Ht). unfold bind.
    rewrite (get_field_own _ _ _ _ Hl), Hv. simpl.
    destruct (f v w) as [[u|e] w2]; [|done].
    unfold Option_some, Some_new. cbv beta iota zeta delta [alloc].
    erewrite Option_map_Some; [| apply lookup_insert_eq | reflexivity].
    unfold bind. erewrite get_field_own; [| apply lookup_insert_eq]. reflexivity.
  - intros Ht. unfold bind. rewrite (Option_map_None _ _ _ _ Hl Ht).
    change (Option_none w) with (alloc (Object CNone {[ "tag" := VStr "None" ]}) w).
    cbv beta iota zeta delta [alloc].
    erewrite Option_map_None; [| apply lookup_insert_eq | reflexivity].
    reflexivity.
Qed.

Lemma map_twice_witness :
  heap world_some42 !! 1%positive = Some some42
  ∧ fields some42 !! "value"%string = Some (VNum 42)
  ∧ (let* a := Option_map 1 double in Option_map a double) world_some42
    = (let* u := double (VNum 42) in
       let* _ := Option_some u in
       let* t := double u in
       Option_some t) world_some42.
Proof.
  split; [reflexivity|]. split; [reflexivity|].
  apply (proj1 (map_twice world_some42 1%positive some42 double double eq_refl)
           (VNum 42)); reflexivity.
Defined.

(** ** Every construction is a new instance *)

Lemma alloc_twice_distinct (o1 o2 : object) (w : world) :
  (let* a := alloc o1 in
   let* b := alloc o2 in
   ret (strict_eq (VRef a) (VRef b))) w
  = (Return false, ((let* a := alloc o1 in alloc o2) w).2).
Proof.
  unfold bind, ret. simpl. f_equal. f_equal. apply Pos.eqb_neq.
  set (l := fresh (dom (heap w))). intros Heq.
  pose proof (alloc_fresh (World (<[l := o1]> (heap w)) (trace w))) as Hfresh.
  simpl in Hfresh. rewrite <- Heq in Hfresh. by rewrite lookup_insert_eq in Hfresh.
Qed.

(** X13.  No instance is shared: two calls of a constructor, even with the
    same argument and even of [Option.none()], return two different
    objects, so [===] between them is [false]; and for every [f],
    [none.map(f)] is an object other than the receiver. *)
Theorem constructors_return_new_instances (w : world) (v : val) :
  ((let* a := Option_none in
    let* b := Option_none in
    ret (strict_eq (VRef a) (VRef b))) w).1 = Return false
  ∧ ((let* a := Option_some v in
      let* b := Option_some v in
      ret (strict_eq (VRef a) (VRef b))) w).1 = Return false
  ∧ ((let* a := Result_ok v in
      let* b := Result_ok v in
      ret (strict_eq (VRef a) (VRef b))) w).1 = Return false
  ∧ ((let* a := Result_err v in
      let* b := Result_err v in
      ret (strict_eq (VRef a) (VRef b))) w).1 = Return false
  ∧ (∀ f, ((let* a := Option_none in
            let* b := Option_map a f in
            ret (strict_eq (VRef a) (VRef b))) w).1 = Return false).
Proof.
  split_and!;
    try (unfold Option_none, None_new, Option_some, Some_new, Result_ok, Ok_new,
           Result_err, Err_new; by rewrite alloc_twice_distinct).
  intros f. unfold bind at 1. simpl. unfold bind.
  erewrite Option_map_None; [| apply alloc_lookup | reflexivity].
  pose proof (alloc_twice_distinct (Object CNone {[ "tag" := VStr "None" ]})
                (Object CNone {[ "tag" := VStr "None" ]}) w) as Hd.
  unfold bind in Hd. simpl in Hd. simpl. by injection Hd as ->.
Qed.

(** ** The tag and the class agree *)

Lemma keeps_tags_ret {A} (a : A) : keeps_tags (ret a).
Proof. by intros w Hw. Qed.

Lemma keeps_tags_throw {A} (e : error) : keeps_tags (throw (A := A) e).
Proof. by intros w Hw. Qed.

Lemma keeps_tags_bind {A B} (m : M A) (k : A → M B) :
  keeps_tags m → (∀ a, keeps_tags (k a)) → keeps_tags (bind m k).
Proof.
  intros Hm Hk w Hw. specialize (Hm w Hw). unfold bind.
  destruct (m w) as [[a|e] w']; simpl in *; [by apply Hk | done].
Qed.

Lemma keeps_tags_get_field (v : val) (name : string) :
  keeps_tags (get_field v name).
Proof.
  intros w Hw. unfold get_field.
  destruct v as [| | | |l0]; try done. by destruct (heap w !! l0).
Qed.

Lemma keeps_tags_alloc (o : object) : well_tagged o → keeps_tags (alloc o).
Proof.
  intros Ho w Hw l o'. simpl. rewrite lookup_insert.
  case_decide; [by intros [= <-] | apply Hw].
Qed.

Lemma keeps_tags_Variant_match {R} (this : loc) (handlers : gmap string (val → M R)) :
  (∀ k h arg, handlers !! k = Some h → keeps_tags (h arg)) →
  keeps_tags (Variant_match this handlers).
Proof.
  intros Hh. unfold Variant_match.
  apply keeps_tags_bind; [apply keeps_tags_get_field|]. intros tag.
  destruct (handlers !! to_string tag) as [h|] eqn:Hk.
  - by apply (Hh (to_string tag)).
  - apply keeps_tags_throw.
Qed.

Create HintDb tags.
#[local] Hint Resolve keeps_tags_ret keeps_tags_throw keeps_tags_bind
  keeps_tags_get_field keeps_tags_alloc : tags.

(** X5.  Every instance the library builds carries the tag of its class,
    and the core keeps it so: the four constructors, and [map] and [flatMap]
    whenever [f] does.  In such a store the two ways of telling the case
    agree: on every [Option] instance, [match] with the handlers
    [{ Some: () => true, None: () => false }] returns what [isSome()]
    returns, and with the two results swapped what [isNone()] returns. *)
Theorem tag_agrees_with_class :
  store_well_tagged empty_world
  ∧ (∀ v, keeps_tags (Result_ok v)) ∧ (∀ e, keeps_tags (Result_err e))
  ∧ (∀ v, keeps_tags (Option_some v)) ∧ keeps_tags Option_none
  ∧ (∀ this f, (∀ v, keeps_tags (f v)) → keeps_tags (Option_map this f))
  ∧ (∀ this f, (∀ v, keeps_tags (f v)) → keeps_tags (Option_flatMap this f))
  ∧ (∀ w this o,
       store_well_tagged w →
       heap w !! this = Some o →
       proto o = CSome ∨ proto o = CNone →
       Variant_match this (obj_literal [
           ("Some"%string, λ _, ret true); ("None"%string, λ _, ret false) ]) w
       = Option_isSome this w
       ∧ Variant_match this (obj_literal [
             ("Some"%string, λ _, ret false); ("None"%string, λ _, ret true) ]) w
         = Option_isNone this w).
Proof.
  split_and!.
  - intros l o Hl. simpl in Hl. by rewrite lookup_empty in Hl.
  - intros v. by apply keeps_tags_alloc.
  - intros e. by apply keeps_tags_alloc.
  - intros v. by apply keeps_tags_alloc.
  - by apply keeps_tags_alloc.
  - intros this f Hf. apply keeps_tags_Variant_match. intros k h arg Hk.
    apply obj_literal_lookup_inv in Hk.
    rewrite !elem_of_cons, elem_of_nil in Hk.
    destruct Hk as [[= -> ->] | [[= -> ->] | []]];
      unfold Option_some, Some_new, Option_none, None_new;
      repeat (apply keeps_tags_bind; [auto with tags | intros ?]);
      by apply keeps_tags_alloc.
  - intros this f Hf. apply keeps_tags_Variant_match. intros k h arg Hk.
    apply obj_literal_lookup_inv in Hk.
    rewrite !elem_of_cons, elem_of_nil in Hk.
    destruct Hk as [[= -> ->] | [[= -> ->] | []]];
      unfold Option_none, None_new;
      repeat (apply keeps_tags_bind; [auto with tags | intros ?]);
      auto with tags; by apply keeps_tags_alloc.
  - intros w this o Hw Hl Hclass. specialize (Hw this o Hl).
    unfold well_tagged in Hw.
    unfold Option_isSome, Option_isNone, bind, class_of. rewrite Hl.
    destruct Hclass as [Hc | Hc]; rewrite Hc in *; split;
      (erewrite Variant_match_found; [| exact Hl | exact Hw | reflexivity]);
      reflexivity.
Qed.

Lemma tag_agrees_with_class_witness :
  store_well_tagged world_some42
  ∧ Variant_match 1 (obj_literal [
        ("Some"%string, λ _, ret true); ("None"%string, λ _, ret false) ])
      world_some42
    = Option_isSome 1 world_some42.
Proof.
  destruct tag_agrees_with_class as (Hempty & _ & _ & Hsome & _ & _ & _ & Hagree).
  assert (Hw : store_well_tagged world_some42) by apply (Hsome (VNum 42) _ Hempty).
  split; [exact Hw|].
  apply (Hagree world_some42 1%positive some42 Hw eq_refl). by left.
Defined.

(** X6.  On every instance of class [Some] or [None], wherever it came
    from: [isNone()] is the negation of [isSome()]; when [isSome()] is true
    [unwrap()] returns, and [unwrapOr(d)] returns the same for every [d];
    when it is false [unwrap()] throws 'Cannot unwrap None' and
    [unwrapOr(d)] returns [d].  None of the four changes the world, and
    [unwrapOr] never throws. *)
Theorem option_observers_cohere (w : world) (this : loc) (o : object) :
  heap w !! this = Some o →
  proto o = CSome ∨ proto o = CNone →
  ∃ b,
    Option_isSome this w = (Return b, w)
    ∧ Option_isNone this w = (Return (negb b), w)
    ∧ (b = true →
         ∃ v, Option_unwrap this w = (Return v, w)
              ∧ ∀ d, Option_unwrapOr this d w = (Return v, w))
    ∧ (b = false →
         Option_unwrap this w = (Throw (Error "Cannot unwrap None"), w)
         ∧ ∀ d, Option_unwrapOr this d w = (Return d, w)).
Proof.
  intros Hl [Hc | Hc].
  - exists true.
    unfold Option_isSome, Option_isNone, Option_unwrap, Option_unwrapOr,
      Some_unwrap, Some_unwrapOr, bind, class_of, get_field.
    rewrite Hl, Hc. split_and!; try done.
    intros _. exists (default VUndef (fields o !! "value")). by rewrite Hl.
  - exists false.
    unfold Option_isSome, Option_isNone, Option_unwrap, Option_unwrapOr,
      bind, class_of.
    rewrite Hl, Hc. by split_and!.
Qed.

Lemma option_observers_cohere_witness :
  ∃ b,
    Option_isSome 1 world_some42 = (Return b, world_some42)
    ∧ Option_isNone 1 world_some42 = (Return (negb b), world_some42)
    ∧ (b = true →
         ∃ v, Option_unwrap 1 world_some42 = (Return v, world_some42)
              ∧ ∀ d, Option_unwrapOr 1 d world_some42 = (Return v, world_some42))
    ∧ (b = false →
         Option_unwrap 1 world_some42
         = (Throw (Error "Cannot unwrap None"), world_some42)
         ∧ ∀ d, Option_unwrapOr 1 d world_some42 = (Return d, world_some42)).
Proof.
  apply (option_observers_cohere world_some42 1%positive some42 eq_refl).
  by left.
Defined.

(** ** [divide] on every pair of numbers *)

Lemma eqb_zero (b : float) : PrimFloat.eqb b 0 = true ↔ is_zero_number b.
Proof.
  rewrite FloatAxioms.eqb_spec. change (Prim2SF 0) with (S754_zero false).
  unfold is_zero_number.
  destruct (Prim2SF b) as [s|s| |s m e]; simpl; split;
    try discriminate; try (intros [? [=]]); eauto.
  - by destruct s.
  - by destruct s.
Qed.

(** X7.  [divide(a, b)] never throws and always builds a new instance: an
    [Err] holding 'Division by zero' exactly when [b] is one of the two
    zeros, and otherwise (a [NaN] or infinite divisor included) an [Ok]
    holding [a / b]; the demo handlers turn the first into
    'Error: Division by zero' and the second into 'Result: ' followed by
    the quotient. *)
Theorem divide_total (a b : float) (w : world) :
  ∃ l w1,
    divide a b w = (Return l, w1)
    ∧ heap w !! l = None
    ∧ (is_zero_number b →
         heap w1 !! l
         = Some (Object CErr {[ "tag" := VStr "Err";
                                "error" := VStr "Division by zero" ]})
         ∧ Variant_match l message_handlers w1
           = (Return "Error: Division by zero"%string, w1))
    ∧ (¬ is_zero_number b →
         heap w1 !! l
         = Some (Object COk {[ "tag" := VStr "Ok"; "value" := VNum (a / b) ]})
         ∧ Variant_match l message_handlers w1
           = (Return ("Result: " +:+ number_to_string (a / b)), w1)).
Proof.
  unfold divide. simpl.
  destruct (PrimFloat.eqb b 0) eqn:Hb.
  - eexists _, _. split; [reflexivity|]. split; [apply alloc_fresh|]. split.
    + intros _. split; [apply alloc_lookup|].
      erewrite Variant_match_found;
        [| apply alloc_lookup | reflexivity | reflexivity].
      run_method.
    + intros Hnz. destruct Hnz. by apply eqb_zero.
  - eexists _, _. split; [reflexivity|]. split; [apply alloc_fresh|]. split.
    + intros Hz%eqb_zero. congruence.
    + intros _. split; [apply alloc_lookup|].
      erewrite Variant_match_found;
        [| apply alloc_lookup | reflexivity | reflexivity].
      run_method.
Qed.

Lemma divide_total_witness :
  is_zero_number neg_zero
  ∧ ¬ is_zero_number nan
  ∧ (∃ l w1,
       divide 1 neg_zero empty_world = (Return l, w1)
       ∧ Variant_match l message_handlers w1
         = (Return "Error: Division by zero"%string, w1))
  ∧ (∃ l w1,
       divide 1 nan empty_world = (Return l, w1)
       ∧ Variant_match l message_handlers w1 = (Return "Result: NaN"%string, w1)).
Proof.
  assert (Hz : is_zero_number neg_zero) by (by exists true).
  assert (Hn : ¬ is_zero_number nan) by (by intros [s Hs]).
  split; [exact Hz|]. split; [exact Hn|]. split.
  - destruct (divide_total 1 neg_zero empty_world)
      as (l & w1 & Hrun & _ & Herr & _).
    exists l, w1. split; [exact Hrun|]. exact (proj2 (Herr Hz)).
  - destruct (divide_total 1 nan empty_world) as (l & w1 & Hrun & _ & _ & Hok).
    exists l, w1. split; [exact Hrun|]. exact (proj2 (Hok Hn)).
Defined.

(** ** The loops of the demo *)

Lemma print_result_line (h : gmap loc object) (tr : list event) (l : loc)
    (o : object) :
  h !! l = Some o → is_result o →
  print_result l (World h tr)
  = (Return tt, World h (tr ++ [ConsoleLog (result_message o)])).
Proof.
  intros Hl [Ht | Ht]; unfold print_result, bind, result_message.
  - erewrite Variant_match_found; [| exact Hl | exact Ht | reflexivity].
    unfold bind, get_field. simpl. rewrite Hl, Ht. reflexivity.
  - erewrite Variant_match_found; [| exact Hl | exact Ht | reflexivity].
    unfold bind, get_field. simpl. rewrite Hl, Ht. reflexivity.
Qed.

(** X8.  Over any array of [Ok] and [Err] instances, the [results.forEach]
    loop prints exactly one line per element, in array order ('Result: '
    with the value, or 'Error: ' with the error), does not throw and leaves
    the store as it was. *)
Theorem forEach_prints_each_result (w : world) (results : list loc)
    (objects : list object) :
  Forall2 (λ l o, heap w !! l = Some o ∧ is_result o) results objects →
  Array_forEach print_result results w
  = (Return tt,
     World (heap w)
       (trace w ++ ((λ o, ConsoleLog (result_message o)) <$> objects))).
Proof.
  destruct w as [h tr]. simpl. intros Hall. revert tr.
  induction Hall as [|l o results objects [Hl Ho] _ IH]; intros tr; simpl.
  - unfold ret. by rewrite app_nil_r.
  - unfold bind. rewrite (print_result_line _ _ _ _ Hl Ho), IH.
    by rewrite <- app_assoc.
Qed.

Lemma forEach_prints_each_result_witness :
  Forall2 (λ l o, heap world_ok5 !! l = Some o ∧ is_result o)
    [1%positive; 1%positive] [ok5; ok5]
  ∧ Array_forEach print_result [1%positive; 1%positive] world_ok5
    = (Return tt,
       World (heap world_ok5)
         (trace world_ok5
            ++ ((λ o, ConsoleLog (result_message o)) <$> [ok5; ok5]))).
Proof.
  assert (Hall : Forall2 (λ l o, heap world_ok5 !! l = Some o ∧ is_result o)
                   [1%positive; 1%positive] [ok5; ok5]).
  { repeat (constructor; [split; [reflexivity | by left] |]). constructor. }
  split; [exact Hall|]. exact (forEach_prints_each_result _ _ _ Hall).
Defined.

Lemma even_message_Some (w : world) (l : loc) (o : object) (v : val) :
  heap w !! l = Some o →
  fields o !! "tag" = Some (VStr "Some") →
  fields o !! "value" = Some v →
  Variant_match l even_handlers w
  = (Return ("Found even number: " +:+ to_string v), w).
Proof.
  intros Hl Ht Hv.
  erewrite Variant_match_found; [| exact Hl | exact Ht | reflexivity].
  unfold bind, get_field. simpl. by rewrite Hl, Hv.
Qed.

Lemma even_message_None (w : world) (l : loc) (o : object) :
  heap w !! l = Some o →
  fields o !! "tag" = Some (VStr "None") →
  Variant_match l even_handlers w = (Return "No even number found"%string, w).
Proof.
  intros Hl Ht.
  by erewrite Variant_match_found; [| exact Hl | exact Ht | reflexivity].
Qed.

(** X9.  For every array, the [evenNumber] part of the demo prints exactly
    one line: 'Found even number: ' with the first element whose remainder
    modulo 2 is 0 when there is one, and 'No even number found' when there
    is none. *)
Theorem print_even_reports_first_even (numbers : list float) (w : world) :
  ((∃ n, n ∈ numbers ∧ is_even n = true) →
     ∃ i n l w1,
       numbers !! i = Some n ∧ is_even n = true
       ∧ (∀ j m, (j < i)%nat → numbers !! j = Some m → is_even m = false)
       ∧ print_even numbers w = (Return l, w1)
       ∧ trace w1
         = trace w ++ [ConsoleLog ("Found even number: " +:+ number_to_string n)])
  ∧ ((∀ n, n ∈ numbers → is_even n = false) →
     ∃ l w1,
       print_even numbers w = (Return l, w1)
       ∧ trace w1 = trace w ++ [ConsoleLog "No even number found"]).
Proof.
  unfold print_even, findEven.
  change (λ n, strict_eq (VNum (number_rem n 2)) (VNum 0)) with is_even.
  destruct (Array_find_spec is_even numbers)
    as [(i & n & Hi & Hn & Hfirst & Hfind) | [Hnone Hfind]]; rewrite Hfind.
  - split.
    + intros _. exists i, n. unfold bind.
      cbv beta iota zeta delta [strict_eq negb Option_some Some_new alloc].
      erewrite even_message_Some;
        [| apply lookup_insert_eq | reflexivity | reflexivity].
      eexists _, _. split_and!; try done.
    + intros Hall. rewrite (Hall n) in Hn; [done|].
      apply list_elem_of_lookup. by exists i.
  - split.
    + intros (n & Hin & Hn). by rewrite (Hnone n Hin) in Hn.
    + intros _. unfold bind.
      cbv beta iota zeta delta [strict_eq negb Option_none None_new alloc].
      erewrite even_message_None; [| apply lookup_insert_eq | reflexivity].
      eexists _, _. split_and!; try done.
Qed.

Lemma print_even_reports_first_even_witness :
  (∃ i n l w1,
     demo_numbers !! i = Some n ∧ is_even n = true
     ∧ (∀ j m, (j < i)%nat → demo_numbers !! j = Some m → is_even m = false)
     ∧ print_even demo_numbers empty_world = (Return l, w1)
     ∧ trace w1
       = trace empty_world
           ++ [ConsoleLog ("Found even number: " +:+ number_to_string n)])
  ∧ (∃ l w1,
       print_even odd_numbers empty_world = (Return l, w1)
       ∧ trace w1 = trace empty_world ++ [ConsoleLog "No even number found"]).
Proof.
  split.
  - apply (proj1 (print_even_reports_first_even demo_numbers empty_world)).
    exists 8%float. split; [|reflexivity].
    do 4 apply list_elem_of_further. apply list_elem_of_here.
  - apply (proj2 (print_even_reports_first_even odd_numbers empty_world)).
    intros n Hn.
    repeat (apply elem_of_cons in Hn as [->|Hn]; [reflexivity|]).
    by apply elem_of_nil in Hn.
Defined.

(** ** A user-defined variant: [Shape] *)

Section Shapes.
Context {R : Type}.
Variables circle rectangle triangle : val → M R.

(** X10.  The core needs nothing more for a variant type of the user's:
    for every [Shape] built by [Shape.circle], [Shape.rectangle] or
    [Shape.triangle] and every three handlers, [match] is the call of the
    handler of the shape's own case on the shape, and the fields read off
    the argument are the constructor's arguments. *)
Theorem shape_match_dispatch (w : world) (radius width height base : float) :
  let handlers := obj_literal [ ("Circle"%string, circle);
                                ("Rectangle"%string, rectangle);
                                ("Triangle"%string, triangle) ] in
  (∃ l w1,
     Shape_circle radius w = (Return l, w1)
     ∧ heap w !! l = None
     ∧ Variant_match l handlers w1 = circle (VRef l) w1
     ∧ get_field (VRef l) "radius" w1 = (Return (VNum radius), w1))
  ∧ (∃ l w1,
       Shape_rectangle width height w = (Return l, w1)
       ∧ heap w !! l = None
       ∧ Variant_match l handlers w1 = rectangle (VRef l) w1
       ∧ get_field (VRef l) "width" w1 = (Return (VNum width), w1)
       ∧ get_field (VRef l) "height" w1 = (Return (VNum height), w1))
  ∧ (∃ l w1,
       Shape_triangle base height w = (Return l, w1)
       ∧ heap w !! l = None
       ∧ Variant_match l handlers w1 = triangle (VRef l) w1
       ∧ get_field (VRef l) "base" w1 = (Return (VNum base), w1)
       ∧ get_field (VRef l) "height" w1 = (Return (VNum height), w1)).
Proof.
  intros handlers.
  split_and!; eexists _, _; (split; [reflexivity|]);
    (split; [apply alloc_fresh|]);
    (split; [erewrite Variant_match_found;
               [reflexivity | apply alloc_lookup | reflexivity | reflexivity]|]);
    run_method.
  - split; run_method.
  - split; run_method.
Qed.

End Shapes.

Lemma print_shape_run (w : world) (l : loc) (o : object) (t line : string)
    (h : val → M unit) :
  heap w !! l = Some o →
  fields o !! "tag" = Some (VStr t) →
  shape_handlers !! t = Some h →
  h (VRef l) w = console_log line w →
  print_shape l w = (Return tt, World (heap w) (trace w ++ [ConsoleLog line])).
Proof.
  intros Hl Ht Hh Hrun. unfold print_shape.
  by rewrite (Variant_match_found _ _ o (VStr t) _ h Hl Ht Hh), Hrun.
Qed.

(** X11.  The [shapes.forEach] loop prints, for every shape, exactly one
    line, that of the shape's case with the shape's own dimensions, and
    changes nothing in the store; so the demo prints its three lines in
    order. *)
Theorem print_shape_lines (w : world) (radius width height base : float) :
  (∃ l w1,
     Shape_circle radius w = (Return l, w1)
     ∧ print_shape l w1
       = (Return tt,
          World (heap w1)
            (trace w1 ++ [ConsoleLog ("Circle with radius "
                                        +:+ number_to_string radius)])))
  ∧ (∃ l w1,
       Shape_rectangle width height w = (Return l, w1)
       ∧ print_shape l w1
         = (Return tt,
            World (heap w1)
              (trace w1 ++ [ConsoleLog ("Rectangle with width "
                                          +:+ number_to_string width
                                          +:+ " and height "
                                          +:+ number_to_string height)])))
  ∧ (∃ l w1,
       Shape_triangle base height w = (Return l, w1)
       ∧ print_shape l w1
         = (Return tt,
            World (heap w1)
              (trace w1 ++ [ConsoleLog ("Triangle with base "
                                          +:+ number_to_string base
                                          +:+ " and height "
                                          +:+ number_to_string height)])))
  ∧ trace (demo_shapes empty_world).2
    = [ ConsoleLog "Circle with radius 5";
        ConsoleLog "Rectangle with width 4 and height 6";
        ConsoleLog "Triangle with base 3 and height 4" ].
Proof.
  split_and!; [| | | vm_compute; reflexivity];
    eexists _, _; (split; [reflexivity|]);
    (eapply print_shape_run; [apply alloc_lookup | reflexivity | reflexivity |]);
    run_method.
Qed.

(** X12.  The area handlers of the test suite give, for every shape, the
    string of the shape's own case computed from its own dimensions
    ([Math.PI * radius * radius], [width * height], [0.5 * base * height]);
    on the suite's three shapes these are the strings the suite expects. *)
Theorem shape_areas (w : world) (radius width height base : float) :
  (∃ l w1,
     Shape_circle radius w = (Return l, w1)
     ∧ Variant_match l area_handlers w1
       = (Return ("Circle: " +:+ number_to_string (Math_PI * radius * radius)),
          w1))
  ∧ (∃ l w1,
       Shape_rectangle width height w = (Return l, w1)
       ∧ Variant_match l area_handlers w1
         = (Return ("Rectangle: " +:+ number_to_string (width * height)), w1))
  ∧ (∃ l w1,
       Shape_triangle base height w = (Return l, w1)
       ∧ Variant_match l area_handlers w1
         = (Return ("Triangle: " +:+ number_to_string (0.5 * base * height)), w1))
  ∧ ((let* circle := Shape_circle 5 in
      let* rectangle := Shape_rectangle 4 6 in
      let* triangle := Shape_triangle 3 4 in
      Array_map (λ shape, Variant_match shape area_handlers)
        [circle; rectangle; triangle]) empty_world).1
    = Return [ "Circle: 78.53981633974483"; "Rectangle: 24"; "Triangle: 6" ]%string.
Proof.
  split_and!; [| | | vm_compute; reflexivity];
    eexists _, _; (split; [reflexivity|]);
    (erewrite Variant_match_found;
       [| apply alloc_lookup | reflexivity | reflexivity]);
    run_method.
Qed.
